(** * GameGeneratorApp (main.py): prompt composition, completion callbacks
      and the dynamic executor

    A shallow embedding of the three methods of [GameGeneratorApp] that
    carry logic ([generate_code], [call_grok_api] with its callbacks, and
    [run_game]) together with the properties of the prompt-to-execution
    pipeline.

    Conventions.
    - A Python [str] is a [string]; each character stands for the code
      point of the same number (0..255).
    - A [dict] with text keys is a [gmap string _].
    - A method of the app is a computation in a state-and-exception monad
      over the process state: it returns normally or lets an exception
      escape, and leaves a new state behind in both cases.
    - What the Python runtime and Kivy do at the library calls of
      [run_game] and [on_success] ([exec], calling the entry point,
      [str] of an exception whose [__str__] is code of the evaluated text,
      [add_widget], assigning a non-text value to [TextInput.text]) is an
      interface, [Runtime]. Evaluated text runs in the process of the app:
      [exec], the call of the entry point and [str] act on the whole
      process state, the app included. The theorems hold for every
      implementation of the interface, and [PyFragment] implements it for a
      small fragment of Python so that the examples run. *)

From Stdlib Require Import ZArith QArith Ascii String.
From stdpp Require Import base option list strings pretty gmap.

Local Open Scope Z_scope.

(** ** Text *)

Module Text.

Definition LF : string := String (ascii_of_nat 10) EmptyString.

(** [str.isspace] on one character, for the code points below 256:
    TAB, LF, VT, FF, CR, the separators FS GS RS US, SPACE, NEL and NBSP. *)
Definition isspace (c : ascii) : bool :=
  let n := nat_of_ascii c in
  ((9 <=? n) && (n <=? 13) || (28 <=? n) && (n <=? 32)
   || (n =? 133) || (n =? 160))%nat.

(** Python truthiness of a text: [not s] holds for the empty text only. *)
Definition is_empty (s : string) : bool :=
  match s with EmptyString => true | String _ _ => false end.

Fixpoint lstrip (s : string) : string :=
  match s with
  | EmptyString => EmptyString
  | String c r => if isspace c then lstrip r else s
  end.

Fixpoint rstrip (s : string) : string :=
  match s with
  | EmptyString => EmptyString
  | String c r =>
      let r' := rstrip r in
      if isspace c && is_empty r' then EmptyString else String c r'
  end.

(** [s.strip()] with no argument. *)
Definition strip (s : string) : string := rstrip (lstrip s).

End Text.

Import Text.

(** [text.replace(CR LF, LF)], which the setter of [TextInput.text]
    applies to the text it is given ([replace_crlf] is on by default):
    the occurrences of CR LF from left to right, each replaced by LF. *)
Fixpoint replace_crlf (s : string) : string :=
  match s with
  | EmptyString => EmptyString
  | String c r =>
      match r with
      | String d r' =>
          if (nat_of_ascii c =? 13)%nat && (nat_of_ascii d =? 10)%nat
          then String d (replace_crlf r')
          else String c (replace_crlf r)
      | EmptyString => s
      end
  end.

(** ** Exceptions *)

(** The part of the exception hierarchy the program can tell apart, with
    [Derived] for every other class (of a library or of evaluated text),
    given by its name and its base class. *)
Inductive exc_class : Type :=
  | BaseException
  | Exception
  | SystemExit
  | KeyboardInterrupt
  | GeneratorExit
  | LookupError
  | KeyError
  | IndexError
  | TypeError
  | NameError
  | AttributeError
  | SyntaxError
  | Derived (name : string) (base : exc_class).

#[global] Instance exc_class_eq_dec : EqDecision exc_class.
Proof. solve_decision. Defined.

(** The class and its bases, most derived first. *)
Fixpoint mro (c : exc_class) : list exc_class :=
  match c with
  | BaseException => [BaseException]
  | Exception => [Exception; BaseException]
  | SystemExit => [SystemExit; BaseException]
  | KeyboardInterrupt => [KeyboardInterrupt; BaseException]
  | GeneratorExit => [GeneratorExit; BaseException]
  | LookupError => [LookupError; Exception; BaseException]
  | KeyError => [KeyError; LookupError; Exception; BaseException]
  | IndexError => [IndexError; LookupError; Exception; BaseException]
  | TypeError => [TypeError; Exception; BaseException]
  | NameError => [NameError; Exception; BaseException]
  | AttributeError => [AttributeError; Exception; BaseException]
  | SyntaxError => [SyntaxError; Exception; BaseException]
  | Derived _ base => c :: mro base
  end.

Definition issubclass (c target : exc_class) : bool :=
  bool_decide (target ∈ mro c).

(** A raised exception. [Exn c s] is an instance of class [c] made with
    the message [s], as Python and the libraries raise them: [str(e)] is
    the text [s]. [ExnObject c id] is an instance, known by its identity
    [id], of a class whose [__str__] is code of the evaluated text:
    [str(e)] runs that code (see [Runtime]). *)
Inductive exn : Type :=
  | Exn (c : exc_class) (s : string)
  | ExnObject (c : exc_class) (id : nat).

Definition exn_class (e : exn) : exc_class :=
  match e with Exn c _ | ExnObject c _ => c end.

(** [except (C1, ..., Cn)] matches an instance of any listed class. *)
Definition matches (classes : list exc_class) (e : exn) : bool :=
  existsb (issubclass (exn_class e)) classes.
Arguments matches : simpl never.

(** ** Values of a decoded response *)

(** What [UrlRequest] hands to [on_success] as [result]: the decoded JSON
    document, or the body as a text when it is not JSON. *)
#[warnings="-register-all"] Inductive pyval : Type :=
  | PNone
  | PBool (b : bool)
  | PInt (n : Z)
  | PFloat (q : Q)
  | PStr (s : string)
  | PList (l : list pyval)
  | PDict (d : gmap string pyval).

Inductive key : Type :=
  | KStr (s : string)
  | KInt (i : Z).

Definition py_len {A} (l : list A) : Z := Z.of_nat (length l).

(** Position of index [i] in a sequence of length [n], Python style:
    a negative index counts from the end. *)
Definition seq_index (n i : Z) : option nat :=
  if (0 <=? i) && (i <? n) then Some (Z.to_nat i)
  else if (- n <=? i) && (i <? 0) then Some (Z.to_nat (n + i))
  else None.

Definition string_chars (s : string) : list ascii := list_ascii_of_string s.

(** [v[k]]: the subscription of a value, with the exception it raises. *)
Definition getitem (v : pyval) (k : key) : pyval + exn :=
  match v, k with
  | PDict d, KStr s =>
      match d !! s with
      | Some x => inl x
      | None => inr (Exn KeyError ("'" +:+ s +:+ "'"))
      end
  | PDict _, KInt i => inr (Exn KeyError (pretty i))
  | PList l, KInt i =>
      match seq_index (py_len l) i ≫= (l !!.) with
      | Some x => inl x
      | None => inr (Exn IndexError "list index out of range")
      end
  | PList _, KStr _ =>
      inr (Exn TypeError "list indices must be integers or slices, not str")
  | PStr s, KInt i =>
      match seq_index (py_len (string_chars s)) i ≫= (string_chars s !!.) with
      | Some c => inl (PStr (String c EmptyString))
      | None => inr (Exn IndexError "string index out of range")
      end
  | PStr _, KStr _ =>
      inr (Exn TypeError "string indices must be integers, not 'str'")
  | PNone, _ => inr (Exn TypeError "'NoneType' object is not subscriptable")
  | PBool _, _ => inr (Exn TypeError "'bool' object is not subscriptable")
  | PInt _, _ => inr (Exn TypeError "'int' object is not subscriptable")
  | PFloat _, _ => inr (Exn TypeError "'float' object is not subscriptable")
  end.

(** ** Computations that may raise *)

Inductive completion (A : Type) : Type :=
  | Return (a : A)
  | Raise (e : exn).
Arguments Return {A} a.
Arguments Raise {A} e.

(** A computation over a state [S]: it ends by returning a value or by
    letting an exception escape, and leaves a state behind either way. *)
Definition M (S A : Type) : Type := S → completion A * S.

#[global] Instance M_ret {S} : MRet (M S) := λ A a s, (Return a, s).

#[global] Instance M_bind {S} : MBind (M S) := λ A B f m s,
  match m s with
  | (Return a, s') => f a s'
  | (Raise e, s') => (Raise e, s')
  end.

Definition raise {S A} (e : exn) : M S A := λ s, (Raise e, s).
Definition gets {S A} (f : S → A) : M S A := λ s, (Return (f s), s).
Definition modify {S} (f : S → S) : M S unit := λ s, (Return tt, f s).

(** [try: body except (classes) as e: handler e]. *)
Definition try_except {S A} (classes : list exc_class)
    (body : M S A) (handler : exn → M S A) : M S A := λ s,
  match body s with
  | (Raise e, s') => if matches classes e then handler e s' else (Raise e, s')
  | r => r
  end.

(** Run a computation of a component [T] of the state inside the whole. *)
Definition zoom {S T A} (proj : S → T) (put : T → S → S) (m : M T A) : M S A :=
  λ s, let '(r, t) := m (proj s) in (r, put t s).

(** ** The process: the app, its outgoing requests, the interpreter *)

(** A request handed to Kivy's [UrlRequest]; [req_body] is the document
    that [json.dumps] serialises, [resp_status] the status of the response
    once there is one. *)
Record UrlRequest : Type := mkUrlRequest {
  url : string;
  req_body : pyval;
  req_headers : list (string * string);
  method : string;
  resp_status : option Z
}.

Section Host.

(** [V]: the objects evaluated text can bind and create.
    [W]: the state of the interpreter that outlives one [exec]
    (module table, [builtins], ...). *)
Context {V W : Type}.

(** The widgets [build] adds to [self.layout], in order, and the widget a
    run mounts. *)
Inductive child : Type :=
  | ApiKeyInput
  | PrefixInput
  | SuffixInput
  | PromptInput
  | GenerateBtn
  | CodeDisplay
  | RunBtn
  | GameWidget (game_widget : V).

(** The attributes of [self]; a [TextInput] is kept as its [text]. *)
Record GameGeneratorApp : Type := mkApp {
  layout : list child;
  api_key_input : string;
  prefix_input : string;
  suffix_input : string;
  prompt_input : string;
  code_display : string
}.

Record Process : Type := mkProcess {
  self : GameGeneratorApp;
  requests : list UrlRequest;
  interp : W
}.

Definition form : list child :=
  [ApiKeyInput; PrefixInput; SuffixInput; PromptInput; GenerateBtn;
   CodeDisplay; RunBtn].

Definition with_code_display (text : string) (a : GameGeneratorApp) :=
  mkApp (layout a) (api_key_input a) (prefix_input a) (suffix_input a)
        (prompt_input a) text.

Definition with_layout (l : list child) (a : GameGeneratorApp) :=
  mkApp l (api_key_input a) (prefix_input a) (suffix_input a)
        (prompt_input a) (code_display a).

Definition with_self (a : GameGeneratorApp) (p : Process) :=
  mkProcess a (requests p) (interp p).

Definition with_interp (w : W) (p : Process) :=
  mkProcess (self p) (requests p) w.

Definition with_request (r : UrlRequest) (p : Process) :=
  mkProcess (self p) (requests p ++ [r]) (interp p).

(** The text of the code display becomes [text]. *)
Definition store_code_display (text : string) : M Process unit :=
  modify (λ p, with_self (with_code_display text (self p)) p).

(** [self.code_display.text = text], for a text: the setter of
    [TextInput.text] stores the text with every CR LF replaced by LF. *)
Definition set_code_display (text : string) : M Process unit :=
  store_code_display (replace_crlf text).

(** [self.layout.clear_widgets()]. *)
Definition clear_widgets : M Process unit :=
  modify (λ p, with_self (with_layout [] (self p)) p).

(** The interface to the Python runtime and to Kivy. Evaluated text runs
    in the process of the app and can reach all of it: [exec], the call of
    the entry point and the [__str__] of an exception of the text are
    computations on the whole process state (the attributes of [self], the
    requests, the interpreter). *)
Record Runtime : Type := mkRuntime {
  (** [exec(code, namespace)]: the namespace as evaluation leaves it, or
      the exception evaluation raises. *)
  exec : string → gmap string V → M Process (gmap string V);
  (** [f()]: calling an object with no argument. *)
  call : V → M Process V;
  (** The exception [add_widget] raises for an object it does not accept
      (one that is not a widget, or that has a parent). *)
  add_widget_error : V → option exn;
  (** Assigning a value that is not a text to [TextInput.text]: the text
      the property then holds, or the exception its setter raises. *)
  set_text_other : pyval → string + exn;
  (** [str(e)] for the instance [id] of a class [c] of the evaluated text:
      the text its [__str__] returns, or the exception it raises. *)
  str_object : exc_class → nat → M Process string
}.

Definition in_interp {A} (m : M W A) : M Process A := zoom interp with_interp m.

End Host.

Arguments child : clear implicits.
Arguments GameGeneratorApp : clear implicits.
Arguments Process : clear implicits.
Arguments Runtime : clear implicits.

(** ** The methods of [GameGeneratorApp] *)

Section Methods.

Context {V W : Type}.
Implicit Types (p : Process V W) (rt : Runtime V W).

Definition api_url : string := "https://api.x.ai/v1/chat/completions".

(** The literal [0.7] as the binary64 number it denotes. *)
Definition temperature : Q := 3152519739159347 # 4503599627370496.

(** The dictionary [call_grok_api] passes to [json.dumps]. *)
Definition chat_payload (full_prompt : string) : pyval :=
  PDict (<["model" := PStr "grok-3"]>
        (<["messages" :=
             PList [PDict (<["role" := PStr "user"]>
                          (<["content" := PStr full_prompt]> ∅))]]>
        (<["max_tokens" := PInt 16000]>
        (<["temperature" := PFloat temperature]> ∅)))).

(** [call_grok_api]: builds the request and hands it to [UrlRequest]; the
    three callbacks are [on_success], [on_failure] and [on_error] below. *)
Definition call_grok_api (full_prompt api_key : string) : M (Process V W) unit :=
  let headers :=
    [("Authorization", "Bearer " +:+ api_key);
     ("Content-Type", "application/json")] in
  let data := chat_payload full_prompt in
  modify (with_request (mkUrlRequest api_url data headers "POST" None)).

Definition generate_code : M (Process V W) unit :=
  api_key ← gets (λ p, strip (api_key_input (self p)));
  if is_empty api_key then
    set_code_display "Error: Please provide an API key"
  else
    prompt ← gets (λ p, strip (prompt_input (self p)));
    if is_empty prompt then
      set_code_display "Error: Please enter a prompt"
    else
      prefix ← gets (λ p, strip (prefix_input (self p)));
      suffix ← gets (λ p, strip (suffix_input (self p)));
      let full_prompt := strip (prefix +:+ " " +:+ prompt +:+ " " +:+ suffix) in
      call_grok_api full_prompt api_key.

(** Lift a subscription into the monad. *)
Definition subscript {S} (v : pyval) (k : key) : M S pyval :=
  match getitem v k with
  | inl x => mret x
  | inr e => raise e
  end.

(** [self.code_display.text = content] for a value of any type. *)
Definition assign_code_display rt (content : pyval) : M (Process V W) unit :=
  match content with
  | PStr text => set_code_display text
  | other =>
      match set_text_other rt other with
      | inl text => store_code_display text
      | inr e => raise e
      end
  end.

Definition on_success rt (req : UrlRequest) (result : pyval) : M (Process V W) unit :=
  try_except [KeyError; IndexError; TypeError]
    (choices ← subscript result (KStr "choices");
     first ← subscript choices (KInt 0);
     message ← subscript first (KStr "message");
     content ← subscript message (KStr "content");
     assign_code_display rt content)
    (λ _, set_code_display "Error: Unable to parse API response").

(** The message is a plain literal, not an f-string: the braces stay. *)
Definition on_failure (req : UrlRequest) (result : pyval) : M (Process V W) unit :=
  set_code_display
    ("Error: API request failed" +:+ LF +:+ LF +:+ "req: {req}"
     +:+ LF +:+ LF +:+ "result: {result}").

(** [str(e)]. *)
Definition str_exn rt (e : exn) : M (Process V W) string :=
  match e with
  | Exn _ s => mret s
  | ExnObject c id => str_object rt c id
  end.

Definition on_error rt (req : UrlRequest) (error : exn) : M (Process V W) unit :=
  text ← str_exn rt error;
  set_code_display ("Error: " +:+ text).

(** [self.layout.add_widget(game_widget)]. *)
Definition add_widget rt (game_widget : V) : M (Process V W) unit :=
  match add_widget_error rt game_widget with
  | Some e => raise e
  | None =>
      modify (λ p, with_self
        (with_layout (layout (self p) ++ [GameWidget game_widget]) (self p)) p)
  end.

Definition run_game rt : M (Process V W) unit :=
  generated_code ← gets (λ p, code_display (self p));
  if is_empty generated_code then
    set_code_display "Error: No valid code to run"
  else
    try_except [Exception]
      (let namespace : gmap string V := ∅ in
       namespace ← exec rt generated_code namespace;
       match namespace !! "GeneratedGameWidget" with
       | Some entry =>
           game_widget ← call rt entry;
           clear_widgets;;
           add_widget rt game_widget
       | None =>
           set_code_display
             "Error: Generated code does not define GeneratedGameWidget"
       end)
      (λ e, text ← str_exn rt e;
            set_code_display ("Error running code: " +:+ text)).

End Methods.

(** ** A fragment of Python, to run the examples

    One implementation of [Runtime]: texts made of lines of the forms

      [pass], [import builtins], [from kivy.uix.widget import Widget],
      [raise NAME], [NAME = NAME], [builtins.NAME = NAME]

    over the classes [int], [object], [Widget], [SystemExit] and
    [Exception] and a closed list of names. A name is looked up in the
    namespace of the evaluation and then in [builtins], as Python does.
    On a text of the fragment the answers are those of CPython 3 with
    Kivy 2. A text outside the fragment is answered with [SyntaxError],
    also where Python would accept it: no statement of this file
    evaluates such a text. *)

Module PyFragment.

Inductive klass : Type := CInt | CObject | CWidget | CSystemExit | CException.

Inductive obj : Type :=
  | OInt (n : Z)
  | OClass (k : klass)
  | OBuiltins
  | OInstance (k : klass) (id : nat).

(** What survives an evaluation: the attributes of the [builtins] module
    and the number of objects created so far. *)
Record world : Type := mkWorld { builtins : gmap string obj; next_id : nat }.

Definition world0 : world :=
  mkWorld (<["int" := OClass CInt]>
          (<["object" := OClass CObject]>
          (<["SystemExit" := OClass CSystemExit]>
          (<["Exception" := OClass CException]> ∅)))) 0.

Inductive stmt : Type :=
  | SPass
  | SImportBuiltins
  | SImportWidget
  | SRaise (name : string)
  | SAssign (name value : string)
  | SSetBuiltin (name value : string).

(** *** Reading the text *)

Fixpoint split_on (sep : ascii) (s : string) : list string :=
  match s with
  | EmptyString => [EmptyString]
  | String c r =>
      if Ascii.eqb c sep then EmptyString :: split_on sep r
      else match split_on sep r with
           | h :: t => String c h :: t
           | [] => [String c EmptyString]
           end
  end.

Fixpoint strip_prefix (pre s : string) : option string :=
  match pre, s with
  | EmptyString, _ => Some s
  | String a pre', String b s' =>
      if Ascii.eqb a b then strip_prefix pre' s' else None
  | String _ _, EmptyString => None
  end.

Fixpoint split_assign (s : string) : option (string * string) :=
  match s with
  | EmptyString => None
  | String c r =>
      match strip_prefix " = " s with
      | Some rhs => Some (EmptyString, rhs)
      | None => prod_map (String c) id <$> split_assign r
      end
  end.

(** The names of the fragment: the four built-in classes it knows and a
    few names that are not built in. No other name of [builtins] can be
    written, so a name that is in neither table is undefined in Python
    too. *)
Definition names : list string :=
  ["int"; "object"; "SystemExit"; "Exception";
   "Widget"; "GeneratedGameWidget"; "leak"; "x"; "y"].

Definition identifier (s : string) : bool := bool_decide (s ∈ names).

Definition parse_line (line : string) : option stmt :=
  if bool_decide (line = "pass") then Some SPass
  else if bool_decide (line = "import builtins") then Some SImportBuiltins
  else if bool_decide (line = "from kivy.uix.widget import Widget")
  then Some SImportWidget
  else match strip_prefix "raise " line with
  | Some name => if identifier name then Some (SRaise name) else None
  | None =>
      match split_assign line with
      | Some (target, value) =>
          if identifier value then
            match strip_prefix "builtins." target with
            | Some name =>
                if identifier name then Some (SSetBuiltin name value) else None
            | None =>
                if identifier target then Some (SAssign target value) else None
            end
          else None
      | None => None
      end
  end.

(** Blank lines are skipped; one unreadable line rejects the text. *)
Definition parse (text : string) : option (list stmt) :=
  mapM parse_line (filter (λ l, l ≠ EmptyString) (split_on (ascii_of_nat 10) text)).

(** *** Evaluation *)

Definition name_error {A} (name : string) : M world A :=
  raise (Exn NameError ("name '" +:+ name +:+ "' is not defined")).

Definition lookup_name (ns : gmap string obj) (name : string) : M world obj :=
  match ns !! name with
  | Some v => mret v
  | None =>
      b ← gets builtins;
      match b !! name with
      | Some v => mret v
      | None => name_error name
      end
  end.

Definition exc_of (k : klass) : option exc_class :=
  match k with
  | CSystemExit => Some SystemExit
  | CException => Some Exception
  | _ => None
  end.

Definition run_stmt (st : stmt) (ns : gmap string obj) : M world (gmap string obj) :=
  match st with
  | SPass => mret ns
  | SImportBuiltins => mret (<["builtins" := OBuiltins]> ns)
  | SImportWidget => mret (<["Widget" := OClass CWidget]> ns)
  | SRaise name =>
      v ← lookup_name ns name;
      match v with
      | OClass k =>
          match exc_of k with
          | Some c => raise (Exn c "")
          | None => raise (Exn TypeError "exceptions must derive from BaseException")
          end
      | _ => raise (Exn TypeError "exceptions must derive from BaseException")
      end
  | SAssign name value =>
      v ← lookup_name ns value;
      mret (<[name := v]> ns)
  | SSetBuiltin name value =>
      v ← lookup_name ns value;
      match ns !! "builtins" with
      | Some _ =>
          modify (λ w, mkWorld (<[name := v]> (builtins w)) (next_id w));;
          mret ns
      | None => name_error "builtins"
      end
  end.

Fixpoint run (prog : list stmt) (ns : gmap string obj) : M world (gmap string obj) :=
  match prog with
  | [] => mret ns
  | st :: rest => ns' ← run_stmt st ns; run rest ns'
  end.

Definition py_exec (text : string) (ns : gmap string obj) : M world (gmap string obj) :=
  match parse text with
  | Some prog => run prog ns
  | None => raise (Exn SyntaxError "invalid syntax")
  end.

Definition type_name (o : obj) : string :=
  match o with
  | OInt _ => "int"
  | OClass _ => "type"
  | OBuiltins => "module"
  | OInstance CInt _ => "int"
  | OInstance CObject _ => "object"
  | OInstance CWidget _ => "Widget"
  | OInstance CSystemExit _ => "SystemExit"
  | OInstance CException _ => "Exception"
  end.

(** Calling a class makes an instance (a new object, but for [int()],
    which is [0]); nothing else in the fragment is callable. *)
Definition py_call (f : obj) : M world obj :=
  match f with
  | OClass CInt => mret (OInt 0)
  | OClass k =>
      n ← gets next_id;
      modify (λ w, mkWorld (builtins w) (S n));;
      mret (OInstance k n)
  | _ => raise (Exn TypeError ("'" +:+ type_name f +:+ "' object is not callable"))
  end.

(** [add_widget] binds to the events of its argument first, which only a
    widget has. *)
Definition py_add_widget_error (o : obj) : option exn :=
  match o with
  | OInstance CWidget _ => None
  | _ => Some (Exn AttributeError
                 ("'" +:+ type_name o +:+ "' object has no attribute 'fbind'"))
  end.

Definition pyval_type_name (v : pyval) : string :=
  match v with
  | PNone => "NoneType"
  | PBool _ => "bool"
  | PInt _ => "int"
  | PFloat _ => "float"
  | PStr _ => "str"
  | PList _ => "list"
  | PDict _ => "dict"
  end.

(** The setter of [TextInput.text] calls [replace] on what it is given. *)
Definition py_set_text_other (v : pyval) : string + exn :=
  inr (Exn AttributeError
         ("'" +:+ pyval_type_name v +:+ "' object has no attribute 'replace'")).

(** The fragment defines no class of its own, so it raises no exception
    whose [__str__] is code of the text; the answer here is never used. *)
Definition py_str_object (c : exc_class) (id : nat) :
    M (Process obj world) string := mret EmptyString.

(** The texts of the fragment act on the interpreter state only. *)
Definition runtime : Runtime obj world :=
  mkRuntime (λ text ns, in_interp (py_exec text ns))
            (λ f, in_interp (py_call f))
            py_add_widget_error py_set_text_other py_str_object.

(** The form with the given texts in the key field, the prompt field and
    the code display, and an empty prefix and suffix. *)
Definition app (api_key prompt code : string) : GameGeneratorApp obj :=
  mkApp form api_key EmptyString EmptyString prompt code.

Definition process (api_key prompt code : string) : Process obj world :=
  mkProcess (app api_key prompt code) [] world0.

End PyFragment.

(** ** Vocabulary of the statements *)

Section Vocabulary.

Context {V W : Type}.
Implicit Types (p : Process V W) (rt : Runtime V W).

(** The process with another text in the code display. *)
Definition shows (text : string) p : Process V W :=
  with_self (with_code_display text (self p)) p.

(** The process with the form replaced by the given children. *)
Definition mounts (l : list (child V)) p : Process V W :=
  with_self (with_layout l (self p)) p.

(** The request [call_grok_api] builds. *)
Definition completion_request (full_prompt api_key : string) : UrlRequest :=
  mkUrlRequest api_url (chat_payload full_prompt)
    [("Authorization", "Bearer " +:+ api_key);
     ("Content-Type", "application/json")]
    "POST" None.

(** What [except Exception as e] of [run_game] makes of an exception
    raised in a state [p]: an exception it catches is turned into its text
    by [str], which may itself raise. *)
Definition handled rt (e : exn) p : completion unit * Process V W :=
  if matches [Exception] e then
    match str_exn rt e p with
    | (Return text, p') =>
        (Return tt, shows (replace_crlf ("Error running code: " +:+ text)) p')
    | (Raise e', p') => (Raise e', p')
    end
  else (Raise e, p).

Definition parse_error : string := "Error: Unable to parse API response".

(** An exception [e] is raised, leaving the process in state [q], by the
    evaluation of the artifact or by the call of the entry point. *)
Inductive raises_in_run rt p (e : exn) (q : Process V W) : Prop :=
  | raises_in_evaluation :
      exec rt (code_display (self p)) ∅ p = (Raise e, q) →
      raises_in_run rt p e q
  | raises_in_instantiation namespace q1 entry :
      exec rt (code_display (self p)) ∅ p = (Return namespace, q1) →
      namespace !! "GeneratedGameWidget" = Some entry →
      call rt entry q1 = (Raise e, q) →
      raises_in_run rt p e q.

(** The run ends before [clear_widgets]: on an empty artifact, an
    exception of the evaluation or of the instantiation, or a missing
    entry point. *)
Inductive ends_before_mount rt p : Prop :=
  | empty_artifact :
      code_display (self p) = "" → ends_before_mount rt p
  | raised e q :
      raises_in_run rt p e q → ends_before_mount rt p
  | missing_entry_point namespace q :
      exec rt (code_display (self p)) ∅ p = (Return namespace, q) →
      namespace !! "GeneratedGameWidget" = None →
      ends_before_mount rt p.

(** The runtime whose evaluator ignores the namespace it is handed and
    starts from the empty one. *)
Definition from_empty_namespace rt : Runtime V W :=
  mkRuntime (λ text _, exec rt text ∅) (call rt) (add_widget_error rt)
            (set_text_other rt) (str_object rt).

(** A runtime whose evaluated text leaves the app alone: [exec], the call
    of the entry point and [str] change the interpreter state at most. *)
Definition quiet rt : Prop :=
  (∀ text namespace p, ∃ w, (exec rt text namespace p).2 = with_interp w p)
  ∧ (∀ f p, ∃ w, (call rt f p).2 = with_interp w p)
  ∧ (∀ c id p, ∃ w, (str_object rt c id p).2 = with_interp w p).

End Vocabulary.

(** Following the spec's words, the path [choices[0].message.content] of
    the expected success shape [{"choices": [{"message": {"content": ..}}]}],
    read off the structure of the document: an object whose ["choices"] is
    an array whose first element is an object whose ["message"] is an
    object with a ["content"]. [on_success] itself goes through the
    subscriptions of Python, [getitem]. *)
Definition content_at_path (result : pyval) : option pyval :=
  match result with
  | PDict d =>
      match d !! "choices" with
      | Some (PList (PDict first :: _)) =>
          match first !! "message" with
          | Some (PDict message) => message !! "content"
          | _ => None
          end
      | _ => None
      end
  | _ => None
  end.

(** The body [{"choices":[{"message":{"content":"X"}}]}]. *)
Definition body_X : pyval :=
  PDict {[ "choices" :=
    PList [PDict {[ "message" := PDict {[ "content" := PStr "X" ]} ]}] ]}.

(** The body [{"choices":[{"message":{"content":null}}]}]. *)
Definition body_null : pyval :=
  PDict {[ "choices" :=
    PList [PDict {[ "message" := PDict {[ "content" := PNone ]} ]}] ]}.

Definition leaking_text : string :=
  "import builtins" +:+ LF +:+ "builtins.leak = int".

Definition widget_text : string :=
  "from kivy.uix.widget import Widget" +:+ LF +:+ "GeneratedGameWidget = Widget".

(** ** The form [build] makes, and the vocabulary of the further
    properties *)

(** A text of white space only, the empty text included. *)
Fixpoint blank (s : string) : bool :=
  match s with
  | EmptyString => true
  | String c r => isspace c && blank r
  end.

(** A text with white space at neither end, as [strip] returns them. *)
Definition clean (t : string) : Prop :=
  t = "" ∨ ∃ c r, t = String c r ∧ isspace c = false ∧ rstrip t = t.

(** The given texts with one space between neighbours. *)
Fixpoint join_space (parts : list string) : string :=
  match parts with
  | [] => EmptyString
  | [x] => x
  | x :: rest => x +:+ " " +:+ join_space rest
  end.

(** The parts that are not empty, with one space between neighbours. *)
Definition joined (parts : list string) : string :=
  join_space (filter (λ s, s ≠ EmptyString) parts).

(** The text [build] puts in [prefix_input], without the space and the two
    line feeds it ends with. *)
Definition default_prefix_text : string :=
  "I want you to write me code in python utilizing Kivy.  Thi"
  +:+ "s should be constructed as a single file, not relying on m"
  +:+ "ultiple python source files or external files such as spri"
  +:+ "tes.  It should contain a Kivy compatible Widget named Gen"
  +:+ "eratedGameWidget.  This will be targeted to run on iPhones"
  +:+ " and iPads running recent releases of iOS and iPadOS.  It "
  +:+ "should make use of touch controls with fallbacks for iOS a"
  +:+ "nd iPadOS supported game controllers and keyboards.  Pay c"
  +:+ "lose attention to coordinate systems and positioning to ma"
  +:+ "ke sure orientation of various entities within the resulti"
  +:+ "ng product behave as intended.  Now, following these instr"
  +:+ "uctions produce the following game for me:".

Definition default_prefix : string :=
  default_prefix_text +:+ " " +:+ LF +:+ LF.

(** The text [build] puts in [suffix_input], without the two line feeds it
    starts with. *)
Definition default_suffix_text : string :=
  "Return only the generated code as your response, do not in"
  +:+ "clude any additional text or information.".

Definition default_suffix : string :=
  LF +:+ LF +:+ default_suffix_text.

(** A response of the expected shape with the given text as content,
    [{"choices": [{"message": {"content": text}}]}]. *)
Definition completion_body (text : string) : pyval :=
  PDict {[ "choices" :=
    PList [PDict {[ "message" := PDict {[ "content" := PStr text ]} ]}] ]}.

Section Build.

Context {V W : Type}.

(** [build]: the attributes of the app once the form is laid out. The demo
    game that [build] puts in [code_display] is a parameter, [asteroids_code]
    (the text has a character outside the code points of [string]); the
    constructor of [TextInput] assigns it through the setter of [text]. The
    two default texts have no CR. *)
Definition build (asteroids_code : string) : GameGeneratorApp V :=
  mkApp form EmptyString default_prefix default_suffix EmptyString
        (replace_crlf asteroids_code).

(** The user types a key and a prompt into their fields. *)
Definition enter (api_key prompt : string) (a : GameGeneratorApp V) :
    GameGeneratorApp V :=
  mkApp (layout a) api_key (prefix_input a) (suffix_input a) prompt
        (code_display a).

(** The process right after [build], with nothing sent yet. *)
Definition started (asteroids_code : string) (w : W) : Process V W :=
  mkProcess (build asteroids_code) [] w.

End Build.

(** * Properties *)

(** ** Text *)

Lemma is_empty_true (s : string) : is_empty s = true ↔ s = EmptyString.
Proof. destruct s; split; intros; done. Qed.

Lemma is_empty_false (s : string) : is_empty s = false ↔ s ≠ EmptyString.
Proof. destruct s; split; intros; done. Qed.

(** What [strip] returns neither starts nor ends with white space, so
    stripping it again changes nothing. *)
Lemma lstrip_first s c r : lstrip s = String c r → isspace c = false.
Proof.
  induction s as [|a s IH]; simpl; [discriminate|].
  destruct (isspace a) eqn:Ha; [exact IH|].
  intros [= <- _]. exact Ha.
Qed.

Lemma rstrip_idempotent s : rstrip (rstrip s) = rstrip s.
Proof.
  induction s as [|a s IH]; simpl; [reflexivity|].
  destruct (isspace a && is_empty (rstrip s)) eqn:E; simpl; [reflexivity|].
  by rewrite IH, E.
Qed.

Lemma rstrip_keeps_first c r :
  isspace c = false → rstrip (String c r) = String c (rstrip r).
Proof. intros H. simpl. by rewrite H. Qed.

Lemma strip_idempotent s : strip (strip s) = strip s.
Proof.
  unfold strip. destruct (lstrip s) as [|c r] eqn:E; [reflexivity|].
  apply lstrip_first in E. rewrite (rstrip_keeps_first c r E).
  simpl lstrip. rewrite E. rewrite <- (rstrip_keeps_first c r E).
  apply rstrip_idempotent.
Qed.

Lemma strip_first s c r : strip s = String c r → isspace c = false.
Proof.
  unfold strip. destruct (lstrip s) as [|a t] eqn:E; [discriminate|].
  apply lstrip_first in E. rewrite (rstrip_keeps_first a t E).
  by intros [= <- _].
Qed.

(** The composed prompt of the running example. *)
Example strip_snake :
  strip (strip "" +:+ " " +:+ strip "Build a snake game" +:+ " " +:+ strip "")
  = "Build a snake game".
Proof. reflexivity. Qed.

Example strip_inner_whitespace_kept :
  strip (" " +:+ LF +:+ "a  b " +:+ LF) = "a  b".
Proof. reflexivity. Qed.

(** ** Exceptions *)

Example SystemExit_is_not_an_Exception : matches [Exception] (Exn SystemExit "") = false.
Proof. reflexivity. Qed.

Example KeyError_is_an_Exception : matches [Exception] (Exn KeyError "'k'") = true.
Proof. reflexivity. Qed.

(** Whatever a subscription raises is caught by
    [except (KeyError, IndexError, TypeError)]. *)
Lemma getitem_error_caught v k e :
  getitem v k = inr e → matches [KeyError; IndexError; TypeError] e = true.
Proof.
  destruct v, k; simpl; intros H;
    repeat match type of H with
           | context [match ?x with _ => _ end] => destruct x
           end;
    inversion H; reflexivity.
Qed.

(** ** The state after a method *)

Section Frames.

Context {V W : Type}.
Implicit Types (p : Process V W) (rt : Runtime V W).

Lemma generate_code_unfold p :
  generate_code p =
    let api_key := strip (api_key_input (self p)) in
    let prompt := strip (prompt_input (self p)) in
    let prefix := strip (prefix_input (self p)) in
    let suffix := strip (suffix_input (self p)) in
    if is_empty api_key then
      (Return tt, shows "Error: Please provide an API key" p)
    else if is_empty prompt then
      (Return tt, shows "Error: Please enter a prompt" p)
    else
      (Return tt,
       with_request
         (completion_request
            (strip (prefix +:+ " " +:+ prompt +:+ " " +:+ suffix)) api_key) p).
Proof.
  unfold generate_code, mbind, M_bind, gets; simpl.
  destruct (is_empty (strip (api_key_input (self p)))); [reflexivity|].
  destruct (is_empty (strip (prompt_input (self p)))); reflexivity.
Qed.

Lemma run_game_unfold rt p :
  run_game rt p =
    let generated_code := code_display (self p) in
    if is_empty generated_code then
      (Return tt, shows "Error: No valid code to run" p)
    else
      match exec rt generated_code ∅ p with
      | (Raise e, q) => handled rt e q
      | (Return namespace, q) =>
          match namespace !! "GeneratedGameWidget" with
          | None =>
              (Return tt,
               shows "Error: Generated code does not define GeneratedGameWidget"
                     q)
          | Some entry =>
              match call rt entry q with
              | (Raise e, q') => handled rt e q'
              | (Return game_widget, q') =>
                  match add_widget_error rt game_widget with
                  | Some e => handled rt e (mounts [] q')
                  | None =>
                      (Return tt, mounts [GameWidget game_widget] q')
                  end
              end
          end
      end.
Proof.
  assert (Hhandled : ∀ e q,
    (if matches [Exception] e
     then (text ← str_exn rt e;
           set_code_display ("Error running code: " +:+ text)) q
     else (Raise e, q)) = handled rt e q).
  { intros e q. unfold handled, mbind, M_bind.
    destruct (matches [Exception] e); [|done].
    by destruct (str_exn rt e q) as [[text|e'] q']. }
  unfold run_game, mbind, M_bind, gets, try_except. simpl.
  destruct (is_empty (code_display (self p))); [reflexivity|].
  destruct (exec rt _ _ _) as [[ns|e] q]; simpl; [|apply Hhandled].
  destruct (ns !! "GeneratedGameWidget") as [entry|]; [|reflexivity].
  simpl. destruct (call rt entry q) as [[g|e] q']; simpl; [|apply Hhandled].
  unfold add_widget. destruct (add_widget_error rt g) as [e|]; simpl;
    [apply Hhandled|reflexivity].
Qed.

End Frames.

(** ** Prompt composition and the checks before a request *)

Section Generation.

Context {V W : Type}.
Implicit Types (p : Process V W).

(** C3. With a key and a body that are not blank, [generate_code]
    hands [UrlRequest] one request whose prompt is exactly
    [strip (strip prefix + " " + strip body + " " + strip suffix)]; for
    an empty prefix, the body "Build a snake game" and an empty suffix the
    prompt is exactly "Build a snake game". *)
Theorem generate_code_composes_prompt p :
  strip (api_key_input (self p)) ≠ "" →
  strip (prompt_input (self p)) ≠ "" →
  generate_code p =
    (Return tt,
     with_request
       (completion_request
          (strip (strip (prefix_input (self p)) +:+ " "
                  +:+ strip (prompt_input (self p)) +:+ " "
                  +:+ strip (suffix_input (self p))))
          (strip (api_key_input (self p)))) p)
  ∧ (prefix_input (self p) = "" →
     prompt_input (self p) = "Build a snake game" →
     suffix_input (self p) = "" →
     generate_code p =
       (Return tt,
        with_request
          (completion_request "Build a snake game"
             (strip (api_key_input (self p)))) p)).
Proof.
  intros Hkey Hbody. rewrite generate_code_unfold. cbv zeta.
  apply is_empty_false in Hkey as ->. apply is_empty_false in Hbody as ->.
  split; [reflexivity|].
  intros -> -> ->. reflexivity.
Qed.

(** C7. With a key that is not blank and a blank body, [generate_code]
    writes the empty-body message whatever the prefix and the suffix are,
    and sends no request; with a body that is not blank it writes no
    message and sends a request, whatever the prefix and the suffix are,
    blank ones included. *)
Theorem generate_code_body_check p :
  strip (api_key_input (self p)) ≠ "" →
  (strip (prompt_input (self p)) = "" →
     generate_code p = (Return tt, shows "Error: Please enter a prompt" p)
     ∧ requests (generate_code p).2 = requests p)
  ∧ (strip (prompt_input (self p)) ≠ "" →
     ∃ request, generate_code p = (Return tt, with_request request p)).
Proof.
  intros Hkey. rewrite generate_code_unfold. cbv zeta.
  apply is_empty_false in Hkey as ->.
  split; intros Hbody.
  - apply is_empty_true in Hbody as ->. done.
  - apply is_empty_false in Hbody as ->. eauto.
Qed.

(** C9. With a blank key, [generate_code] writes
    'Error: Please provide an API key' and sends no request, whatever the
    prompt, the prefix and the suffix are: the key is checked before the
    body, so a blank key with a blank body gives the key message. *)
Theorem generate_code_key_check p :
  strip (api_key_input (self p)) = "" →
  generate_code p = (Return tt, shows "Error: Please provide an API key" p)
  ∧ requests (generate_code p).2 = requests p
  ∧ code_display (self (generate_code p).2) ≠ "Error: Please enter a prompt".
Proof.
  intros Hkey. rewrite generate_code_unfold. cbv zeta.
  apply is_empty_true in Hkey as ->. done.
Qed.

End Generation.

(** ** The callbacks of the completion request *)

Section Callbacks.

Context {V W : Type}.
Implicit Types (p : Process V W) (rt : Runtime V W).

(** A text is subscripted by a text only to raise [TypeError]. *)
Lemma getitem_by_text_is_dict v name x :
  getitem v (KStr name) = inl x → ∃ d, v = PDict d ∧ d !! name = Some x.
Proof.
  destruct v; simpl; try discriminate.
  destruct (d !! name) eqn:E; [|discriminate].
  intros [= <-]. eauto.
Qed.

Lemma getitem_first_of_list (l : list pyval) :
  getitem (PList l) (KInt 0) =
    match l with
    | x :: _ => inl x
    | [] => inr (Exn IndexError "list index out of range")
    end.
Proof. destruct l; reflexivity. Qed.

Lemma on_success_unfold rt req result p :
  on_success rt req result p =
    match content_at_path result with
    | Some (PStr text) => (Return tt, shows (replace_crlf text) p)
    | Some other =>
        match set_text_other rt other with
        | inl text => (Return tt, shows text p)
        | inr e =>
            if matches [KeyError; IndexError; TypeError] e
            then (Return tt, shows parse_error p)
            else (Raise e, p)
        end
    | None => (Return tt, shows parse_error p)
    end.
Proof.
  unfold on_success, try_except, mbind, M_bind, subscript, parse_error.
  (* a failing subscription is caught *)
  assert (Hfail : ∀ v k e, getitem v k = inr e →
    (if matches [KeyError; IndexError; TypeError] e
     then set_code_display "Error: Unable to parse API response" p
     else (Raise e, p))
    = (Return tt, shows "Error: Unable to parse API response" p)).
  { intros v k e ->%getitem_error_caught. reflexivity. }
  destruct (getitem result (KStr "choices")) as [choices|e] eqn:E1; simpl.
  2:{ rewrite (Hfail _ _ _ E1). destruct result; simpl in *; try done.
      destruct (d !! "choices"); done. }
  apply getitem_by_text_is_dict in E1 as (d & -> & Hd). simpl. rewrite Hd.
  destruct (getitem choices (KInt 0)) as [first|e] eqn:E2; simpl.
  2:{ rewrite (Hfail _ _ _ E2). destruct choices; try done.
      rewrite getitem_first_of_list in E2. destruct l; done. }
  destruct (getitem first (KStr "message")) as [message|e] eqn:E3; simpl.
  2:{ rewrite (Hfail _ _ _ E3). destruct choices; try done.
      rewrite getitem_first_of_list in E2. destruct l; [done|].
      injection E2 as ->. destruct first; simpl in *; try done.
      destruct (d0 !! "message"); done. }
  apply getitem_by_text_is_dict in E3 as (d1 & -> & Hd1).
  destruct choices; try (simpl in E2; discriminate).
  1:{ simpl in E2. destruct (seq_index _ _ ≫= _); discriminate. }
  rewrite getitem_first_of_list in E2. destruct l as [|x rest]; [done|].
  injection E2 as ->. rewrite Hd1.
  destruct (getitem message (KStr "content")) as [content|e] eqn:E4; simpl.
  2:{ rewrite (Hfail _ _ _ E4). destruct message; simpl in *; try done.
      destruct (d0 !! "content"); done. }
  apply getitem_by_text_is_dict in E4 as (d2 & -> & Hd2). rewrite Hd2.
  unfold assign_code_display.
  destruct content; try reflexivity;
    destruct (set_text_other rt _) as [text|e]; simpl; reflexivity.
Qed.

End Callbacks.

Section CallbackProperties.

Context {V W : Type}.
Implicit Types (p : Process V W) (rt : Runtime V W).

(** The part of C4 that holds: a response with a text at
    [choices[0].message.content] puts that text in the code display
    (with CR LF stored as LF), and a response without the path puts the
    parse-error message there. *)
Lemma on_success_text_or_parse_error rt req result p :
  (∀ text, content_at_path result = Some (PStr text) →
     on_success rt req result p = (Return tt, shows (replace_crlf text) p))
  ∧ (content_at_path result = None →
     on_success rt req result p = (Return tt, shows parse_error p)).
Proof.
  rewrite on_success_unfold. split; [intros text ->|intros ->]; reflexivity.
Qed.

Example on_success_body_X rt req p :
  on_success rt req body_X p = (Return tt, shows "X" p).
Proof.
  apply (proj1 (on_success_text_or_parse_error rt req body_X p) "X").
  reflexivity.
Qed.

Example on_success_empty_object rt req p :
  on_success rt req (PDict ∅) p = (Return tt, shows parse_error p).
Proof. apply on_success_text_or_parse_error. reflexivity. Qed.

Example on_success_not_json rt req p :
  on_success rt req (PStr "<html>") p = (Return tt, shows parse_error p).
Proof. apply on_success_text_or_parse_error. reflexivity. Qed.

(** A content that is not a text is left to the setter of
    [TextInput.text]; an exception of the setter outside the three caught
    classes leaves [on_success]. *)
Lemma on_success_other_content rt req result content e p :
  content_at_path result = Some content →
  (∀ text, content ≠ PStr text) →
  set_text_other rt content = inr e →
  matches [KeyError; IndexError; TypeError] e = false →
  on_success rt req result p = (Raise e, p).
Proof.
  intros Hpath Hother Hset Hclass. rewrite on_success_unfold, Hpath.
  destruct content; rewrite ?Hset, ?Hclass; try reflexivity.
  by destruct (Hother s).
Qed.

(** C2. Whatever the request and the response are, [on_failure] writes
    one and the same text, the literal with its braces: neither the status
    nor the body of the response is in it. *)
Theorem on_failure_message_is_literal req result p :
  on_failure req result p =
    (Return tt,
     shows ("Error: API request failed" +:+ LF +:+ LF +:+ "req: {req}"
            +:+ LF +:+ LF +:+ "result: {result}") p)
  ∧ ∀ req' result', on_failure req' result' p = on_failure req result p.
Proof. split; reflexivity. Qed.

Example on_failure_401 p :
  on_failure
    (mkUrlRequest api_url (chat_payload "a game") [] "POST" (Some 401))
    (PDict {[ "error" := PStr "Invalid API key" ]}) p
  = (Return tt,
     shows ("Error: API request failed" +:+ LF +:+ LF +:+ "req: {req}"
            +:+ LF +:+ LF +:+ "result: {result}") p).
Proof. reflexivity. Qed.

Lemma on_error_message rt req c s p :
  on_error rt req (Exn c s) p
  = (Return tt, shows (replace_crlf ("Error: " +:+ s)) p).
Proof. reflexivity. Qed.

End CallbackProperties.

(** C4. The response [{"choices":[{"message":{"content":null}}]}] has
    the path [choices[0].message.content], and [on_success] ends with
    neither outcome: the setter of [TextInput.text] raises [AttributeError]
    on [None], [except (KeyError, IndexError, TypeError)] does not catch
    it, the exception leaves the callback and the code display keeps its
    text. *)
Theorem on_success_null_content_escapes req code :
  let p := PyFragment.process "k" "prompt" code in
  content_at_path body_null = Some PNone
  ∧ on_success PyFragment.runtime req body_null p =
      (Raise (Exn AttributeError "'NoneType' object has no attribute 'replace'"), p).
Proof. split; reflexivity. Qed.

(** ** The dynamic executor *)

Section Executor.

Context {V W : Type}.
Implicit Types (p q : Process V W) (rt : Runtime V W).

Lemma run_game_raises rt p e q :
  code_display (self p) ≠ "" →
  raises_in_run rt p e q →
  run_game rt p = handled rt e q.
Proof.
  intros Hcode%is_empty_false Hraise.
  rewrite run_game_unfold. cbv zeta. rewrite Hcode.
  destruct Hraise as [->|namespace q1 entry -> -> ->]; reflexivity.
Qed.



(** C8. With an empty code display [run_game] writes
    'Error: No valid code to run' and is done: the result is the same for
    every runtime and the interpreter state is untouched, so nothing was
    evaluated. *)
Theorem run_game_empty_artifact rt p :
  code_display (self p) = "" →
  run_game rt p = (Return tt, shows "Error: No valid code to run" p)
  ∧ interp (run_game rt p).2 = interp p
  ∧ ∀ rt', run_game rt' p = run_game rt p.
Proof.
  intros Hcode%is_empty_true.
  split_and!; try intros rt'; rewrite !run_game_unfold; cbv zeta;
    rewrite Hcode; reflexivity.
Qed.

Lemma with_interp_same p : with_interp (interp p) p = p.
Proof. by destruct p. Qed.

Lemma quiet_str rt e p :
  quiet rt → ∃ w, (str_exn rt e p).2 = with_interp w p.
Proof.
  intros (_ & _ & Hstr). destruct e as [c s|c id]; [|apply Hstr].
  exists (interp p). simpl. by rewrite with_interp_same.
Qed.

Lemma quiet_handled rt e p :
  quiet rt →
  ∃ text w,
    (handled rt e p).2
      = mkProcess (with_code_display text (self p)) (requests p) w
    ∧ (text = code_display (self p) ∨ String.prefix "Error" text = true).
Proof.
  intros Hq. unfold handled. destruct (matches [Exception] e).
  - destruct (quiet_str rt e p Hq) as [w Hw].
    destruct (str_exn rt e p) as [[text|e'] p']; simpl in *; subst p'.
    + eexists _, w. split; [done|by right].
    + exists (code_display (self p)), w. split; [by destruct p as [[]]|by left].
  - exists (code_display (self p)), (interp p).
    split; [by destruct p as [[]]|by left].
Qed.

(** The part of C10 that holds, for an artifact that leaves the app
    alone: a run that ends before [clear_widgets] leaves everything but
    the text of the code display and the interpreter state as it was. *)
Lemma run_game_frame_before_mount rt p :
  quiet rt →
  ends_before_mount rt p →
  ∃ text w,
    (run_game rt p).2 =
      mkProcess (with_code_display text (self p)) (requests p) w.
Proof.
  intros Hq Hends. pose proof Hq as (Hexec & Hcall & _).
  destruct (is_empty (code_display (self p))) eqn:Hcode.
  { rewrite run_game_unfold. cbv zeta. rewrite Hcode.
    by eexists _, (interp p). }
  apply is_empty_false in Hcode.
  destruct Hends as [Hempty|e q Hraise|namespace q Hrun Hentry]; [done| |].
  - rewrite (run_game_raises rt p e q) by done.
    destruct (quiet_handled rt e q Hq) as (text & w & -> & _).
    exists text, w.
    destruct Hraise as [Hrun|namespace q1 entry Hrun _ Hc].
    + destruct (Hexec (code_display (self p)) ∅ p) as [w1 H1].
      rewrite Hrun in H1. simpl in H1. by subst q.
    + destruct (Hexec (code_display (self p)) ∅ p) as [w1 H1].
      rewrite Hrun in H1. simpl in H1. subst q1.
      destruct (Hcall entry (with_interp w1 p)) as [w2 H2].
      rewrite Hc in H2. simpl in H2. by subst q.
  - rewrite run_game_unfold. cbv zeta.
    apply is_empty_false in Hcode. rewrite Hcode, Hrun, Hentry.
    destruct (Hexec (code_display (self p)) ∅ p) as [w1 H1].
    rewrite Hrun in H1. simpl in H1. subst q. by eexists _, w1.
Qed.

(** For an artifact that leaves the app alone, the layout changes only in
    a run that reached [clear_widgets]. *)
Lemma run_game_layout_changes rt p :
  quiet rt →
  layout (self (run_game rt p).2) ≠ layout (self p) →
  ∃ namespace q entry game_widget q',
    exec rt (code_display (self p)) ∅ p = (Return namespace, q)
    ∧ namespace !! "GeneratedGameWidget" = Some entry
    ∧ call rt entry q = (Return game_widget, q').
Proof.
  intros Hq Hlayout.
  destruct (exec rt (code_display (self p)) ∅ p) as [[namespace|e] q] eqn:Hrun.
  - destruct (namespace !! "GeneratedGameWidget") as [entry|] eqn:Hentry.
    + destruct (call rt entry q) as [[g|e] q'] eqn:Hc;
        [by exists namespace, q, entry, g, q'|].
      destruct Hlayout.
      destruct (run_game_frame_before_mount rt p Hq) as (text & w & ->);
        [|done].
      apply (raised rt p e q'). by eapply raises_in_instantiation.
    + destruct Hlayout.
      destruct (run_game_frame_before_mount rt p Hq) as (text & w & ->);
        [|done].
      by eapply missing_entry_point.
  - destruct Hlayout.
    destruct (run_game_frame_before_mount rt p Hq) as (text & w & ->);
      [|done].
    apply (raised rt p e q). by apply raises_in_evaluation.
Qed.

(** A run that reached [clear_widgets] and whose [add_widget] raises
    leaves the layout empty, caught or not. *)
Lemma run_game_add_widget_raises rt p namespace q entry game_widget q' e :
  code_display (self p) ≠ "" →
  exec rt (code_display (self p)) ∅ p = (Return namespace, q) →
  namespace !! "GeneratedGameWidget" = Some entry →
  call rt entry q = (Return game_widget, q') →
  add_widget_error rt game_widget = Some e →
  run_game rt p = handled rt e (mounts [] q').
Proof.
  intros Hcode%is_empty_false Hexec Hentry Hcall Hadd.
  rewrite run_game_unfold. cbv zeta.
  by rewrite Hcode, Hexec, Hentry, Hcall, Hadd.
Qed.

End Executor.

(** ** Isolation between runs *)

Section Isolation.

Context {V W : Type}.
Implicit Types (p : Process V W) (rt : Runtime V W).

Lemma run_game_from_empty_namespace rt p :
  run_game (from_empty_namespace rt) p = run_game rt p.
Proof. by rewrite !run_game_unfold. Qed.

(** C5, as the code has it. Every run hands [exec] a new, empty
    namespace and keeps nothing of it: a run, and a run after a run, end
    as they do with an evaluator that only ever starts from the empty
    namespace, so no name bound by one evaluation is in the namespace of
    the next. Two runs that both succeed evaluate the text twice and call
    the entry point twice, each run the entry point of its own evaluation:
    the instance of the second call replaces the instance of the first as
    the only child of the layout. Nothing else is fresh: the first run
    acts on the process state, and the second starts from the state the
    first has left. *)
Theorem run_game_fresh_namespace rt p :
  run_game (from_empty_namespace rt) p = run_game rt p
  ∧ (run_game (from_empty_namespace rt);; run_game (from_empty_namespace rt)) p
    = (run_game rt;; run_game rt) p
  ∧ (∀ namespace1 q1 entry1 first q1' namespace2 q2 entry2 second q2',
       let p2 := mounts [GameWidget first] q1' in
       code_display (self p) ≠ "" →
       exec rt (code_display (self p)) ∅ p = (Return namespace1, q1) →
       namespace1 !! "GeneratedGameWidget" = Some entry1 →
       call rt entry1 q1 = (Return first, q1') →
       add_widget_error rt first = None →
       code_display (self p2) ≠ "" →
       exec rt (code_display (self p2)) ∅ p2 = (Return namespace2, q2) →
       namespace2 !! "GeneratedGameWidget" = Some entry2 →
       call rt entry2 q2 = (Return second, q2') →
       add_widget_error rt second = None →
       (run_game rt;; run_game rt) p
       = (Return tt, mounts [GameWidget second] q2')
       ∧ layout (self ((run_game rt;; run_game rt) p).2)
         = [GameWidget second]).
Proof.
  split_and!; [apply run_game_from_empty_namespace| |].
  - unfold mbind, M_bind. rewrite run_game_from_empty_namespace.
    destruct (run_game rt p) as [[[]|e] q]; [|done].
    apply run_game_from_empty_namespace.
  - intros namespace1 q1 entry1 first q1' namespace2 q2 entry2 second q2' p2
      Hcode1%is_empty_false Hexec1 Hentry1 Hcall1 Hadd1
      Hcode2%is_empty_false Hexec2 Hentry2 Hcall2 Hadd2.
    assert (H1 : run_game rt p = (Return tt, p2)).
    { rewrite run_game_unfold. cbv zeta.
      by rewrite Hcode1, Hexec1, Hentry1, Hcall1, Hadd1. }
    assert (H2 : run_game rt p2
                 = (Return tt, mounts [GameWidget second] q2')).
    { rewrite run_game_unfold. cbv zeta.
      by rewrite Hcode2, Hexec2, Hentry2, Hcall2, Hadd2. }
    unfold mbind, M_bind. by rewrite H1, H2.
Qed.

End Isolation.

(** ** The examples, run in the fragment *)

Import PyFragment.

Lemma fragment_quiet : quiet runtime.
Proof.
  split_and!.
  - intros text namespace p. simpl. unfold in_interp, zoom.
    destruct (py_exec text namespace (interp p)) as [r w]. by exists w.
  - intros f p. simpl. unfold in_interp, zoom.
    destruct (py_call f (interp p)) as [r w]. by exists w.
  - intros c id p. exists (interp p). simpl. by rewrite with_interp_same.
Qed.


(** Against C5 as stated. A first run that assigns an attribute of
    [builtins] changes what a second run does: alone, the text [x = leak]
    fails with [NameError]; after the first run it evaluates. *)
Lemma builtins_leak_between_runs :
  let p := process "k" "" leaking_text in
  let after_first := (run_game runtime p).2 in
  code_display (self (run_game runtime (shows "x = leak" p)).2)
    = "Error running code: name 'leak' is not defined"
  ∧ code_display (self (run_game runtime (shows "x = leak" after_first)).2)
    = "Error: Generated code does not define GeneratedGameWidget".
Proof. split; reflexivity. Qed.


(** Two runs of one valid artifact call the entry point twice and mount
    two instances. *)
Example two_runs_two_instances :
  let p := process "k" "" widget_text in
  let after_first := (run_game runtime p).2 in
  layout (self after_first) = [GameWidget (OInstance CWidget 0)]
  ∧ layout (self (run_game runtime after_first).2)
    = [GameWidget (OInstance CWidget 1)].
Proof. split; reflexivity. Qed.

(** C10. The artifact [GeneratedGameWidget = int]: the evaluation
    succeeds, the entry point is there, [int()] returns [0], the layout is
    cleared and [add_widget(0)] raises; the run fails with its message in
    the code display, and the form is gone. *)
Theorem run_game_failed_mount_clears_layout :
  let p := process "k" "" "GeneratedGameWidget = int" in
  (run_game runtime p).1 = Return tt
  ∧ code_display (self (run_game runtime p).2)
    = "Error running code: 'int' object has no attribute 'fbind'"
  ∧ layout (self p) = form
  ∧ layout (self (run_game runtime p).2) = [].
Proof. split_and!; reflexivity. Qed.

(** *** The theorems at concrete inputs *)

Lemma generate_code_composes_prompt_witness :
  generate_code (process "k" "Build a snake game" "")
  = (Return tt,
     with_request (completion_request "Build a snake game" "k")
       (process "k" "Build a snake game" "")).
Proof.
  apply (generate_code_composes_prompt (process "k" "Build a snake game" ""));
    done.
Defined.

Lemma generate_code_body_check_witness :
  generate_code (process "k" "   " "old")
  = (Return tt, shows "Error: Please enter a prompt" (process "k" "   " "old")).
Proof.
  apply (generate_code_body_check (process "k" "   " "old")); done.
Defined.

Lemma generate_code_key_check_witness :
  generate_code (process "  " "" "old")
  = (Return tt, shows "Error: Please provide an API key" (process "  " "" "old")).
Proof.
  apply (generate_code_key_check (process "  " "" "old")). done.
Defined.


Lemma run_game_fresh_namespace_witness :
  (run_game runtime;; run_game runtime) (process "k" "" widget_text)
  = (Return tt,
     mounts [GameWidget (OInstance CWidget 1)]
       (with_interp (mkWorld (builtins world0) 2)
          (mounts [GameWidget (OInstance CWidget 0)]
             (with_interp (mkWorld (builtins world0) 1)
                (process "k" "" widget_text))))).
Proof.
  refine (proj1
    (proj2 (proj2 (run_game_fresh_namespace runtime
                     (process "k" "" widget_text)))
       (<["GeneratedGameWidget" := OClass CWidget]>
          (<["Widget" := OClass CWidget]> ∅))
       (process "k" "" widget_text)
       (OClass CWidget) (OInstance CWidget 0)
       (with_interp (mkWorld (builtins world0) 1)
          (process "k" "" widget_text))
       (<["GeneratedGameWidget" := OClass CWidget]>
          (<["Widget" := OClass CWidget]> ∅))
       (mounts [GameWidget (OInstance CWidget 0)]
          (with_interp (mkWorld (builtins world0) 1)
             (process "k" "" widget_text)))
       (OClass CWidget) (OInstance CWidget 1)
       (with_interp (mkWorld (builtins world0) 2)
          (mounts [GameWidget (OInstance CWidget 0)]
             (with_interp (mkWorld (builtins world0) 1)
                (process "k" "" widget_text))))
       _ _ _ _ _ _ _ _ _ _)); done.
Defined.


Lemma run_game_empty_artifact_witness :
  run_game runtime (process "k" "" "")
  = (Return tt, shows "Error: No valid code to run" (process "k" "" "")).
Proof.
  apply (run_game_empty_artifact runtime (process "k" "" "")). done.
Defined.

(** * Further properties *)

(** ** White space and [strip] *)

Lemma append_nil (b : string) : "" +:+ b = b.
Proof. reflexivity. Qed.

Lemma append_cons (x : ascii) (a b : string) :
  String x a +:+ b = String x (a +:+ b).
Proof. reflexivity. Qed.

Lemma append_assoc (a b c : string) : (a +:+ b) +:+ c = a +:+ b +:+ c.
Proof.
  induction a as [|x a IH]; [done|]. by rewrite !append_cons, IH.
Qed.

Lemma append_empty_r (a : string) : a +:+ "" = a.
Proof. induction a as [|x a IH]; [done|]. by rewrite append_cons, IH. Qed.

Lemma is_empty_append_r (a b : string) :
  is_empty b = false → is_empty (a +:+ b) = false.
Proof. by destruct a. Qed.

Lemma lstrip_blank s : lstrip s = "" ↔ blank s = true.
Proof.
  induction s as [|c s IH]; simpl; [done|].
  destruct (isspace c); simpl; [exact IH|done].
Qed.

(** [strip] leaves nothing exactly of the texts of white space. *)
Lemma is_empty_strip s : is_empty (strip s) = blank s.
Proof.
  unfold strip. destruct (blank s) eqn:B.
  - apply lstrip_blank in B. by rewrite B.
  - destruct (lstrip s) as [|c r] eqn:E.
    + apply lstrip_blank in E. congruence.
    + by rewrite (rstrip_keeps_first c r (lstrip_first _ _ _ E)).
Qed.

Lemma strip_clean s : clean (strip s).
Proof.
  destruct (strip s) as [|c r] eqn:E; [by left|right].
  exists c, r. split_and!; [done|by eapply strip_first|].
  rewrite <- E. apply rstrip_idempotent.
Qed.

Lemma clean_rstrip t : clean t → rstrip t = t.
Proof. by intros [->|(c & r & _ & _ & H)]. Qed.

Lemma clean_lstrip_app t u : clean t → t ≠ "" → lstrip (t +:+ u) = t +:+ u.
Proof.
  intros [->|(c & r & -> & Hc & _)] Hne; [done|].
  rewrite append_cons. simpl. by rewrite Hc.
Qed.

Lemma clean_strip t : clean t → strip t = t.
Proof.
  intros Ht. destruct (decide (t = "")) as [->|Hne]; [done|].
  unfold strip. pose proof (clean_lstrip_app t "" Ht Hne) as H.
  rewrite append_empty_r in H. rewrite H. by apply clean_rstrip.
Qed.

Lemma rstrip_app s t : rstrip t ≠ "" → rstrip (s +:+ t) = s +:+ rstrip t.
Proof.
  intros Ht. induction s as [|c s IH]; [done|].
  rewrite !append_cons. simpl.
  rewrite IH, is_empty_append_r, andb_false_r; [done|].
  by destruct (rstrip t).
Qed.

Lemma rstrip_app_space s : rstrip (s +:+ " ") = rstrip s.
Proof.
  induction s as [|c s IH]; [done|]. rewrite append_cons. simpl.
  by rewrite IH.
Qed.

Lemma join_space_nonempty (x : string) (l : list string) :
  x ≠ "" → x ∈ l → join_space l ≠ "".
Proof.
  intros Hx. induction l as [|y l IH]; [by intros ?%elem_of_nil|].
  intros [->|Hin]%elem_of_cons.
  - destruct l; simpl; by destruct y.
  - destruct l as [|z l]; [by apply elem_of_nil in Hin|].
    simpl. destruct y; [|done]. simpl. discriminate.
Qed.

(** The composition of [generate_code] on texts that are already
    stripped: the parts that are not empty, one space apart. *)
Lemma strip_compose a b c :
  clean a → clean b → clean c → b ≠ "" →
  strip (a +:+ " " +:+ b +:+ " " +:+ c) = joined [a; b; c].
Proof.
  intros Ha Hb Hc Hne. unfold joined, strip.
  assert (Hrb : rstrip b ≠ "") by (by rewrite (clean_rstrip b Hb)).
  (* the right end *)
  assert (Hright : ∀ s, rstrip (s +:+ b +:+ " " +:+ c)
            = s +:+ b +:+ (if decide (c ≠ "") then " " +:+ c else "")).
  { intros s. destruct (decide (c ≠ "")) as [Hcne|Hce].
    - replace (s +:+ b +:+ " " +:+ c) with ((s +:+ b +:+ " ") +:+ c)
        by (by rewrite !append_assoc).
      rewrite rstrip_app by (by rewrite (clean_rstrip c Hc)).
      by rewrite (clean_rstrip c Hc), !append_assoc.
    - apply dec_stable in Hce as ->.
      replace (s +:+ b +:+ " " +:+ "") with ((s +:+ b) +:+ " ")
        by (by rewrite !append_assoc).
      rewrite rstrip_app_space, rstrip_app by done.
      by rewrite (clean_rstrip b Hb), append_empty_r. }
  rewrite !filter_cons, filter_nil, (decide_True _ _ Hne).
  destruct (decide (a ≠ "")) as [Hane|Hae].
  - rewrite (clean_lstrip_app a _ Ha Hane).
    replace (a +:+ " " +:+ b +:+ " " +:+ c)
      with ((a +:+ " ") +:+ b +:+ " " +:+ c) by (by rewrite !append_assoc).
    rewrite Hright, append_assoc.
    destruct (decide (c ≠ "")); [done|]. simpl. by rewrite append_empty_r.
  - apply dec_stable in Hae as ->. rewrite append_nil, append_cons.
    simpl lstrip. rewrite append_nil, (clean_lstrip_app b _ Hb Hne).
    rewrite <- (append_nil (b +:+ _)), Hright, append_nil.
    destruct (decide (c ≠ "")); [done|]. simpl. by rewrite append_empty_r.
Qed.

Lemma joined_nonempty a b c : b ≠ "" → joined [a; b; c] ≠ "".
Proof.
  intros Hb. apply (join_space_nonempty b); [done|].
  apply list_elem_of_filter. split; [done|]. set_solver.
Qed.

Lemma strip_defaults :
  strip default_prefix = default_prefix_text
  ∧ strip default_suffix = default_suffix_text
  ∧ default_prefix_text ≠ "" ∧ default_suffix_text ≠ "".
Proof. split_and!; [by vm_compute..| |]; by vm_compute. Qed.

(** ** [generate_code], further *)

Section GenerationMore.

Context {V W : Type}.
Implicit Types (p : Process V W).

(** [generate_code] by the white space of the fields. *)
Lemma generate_code_by_blank p :
  generate_code p =
    if blank (api_key_input (self p)) then
      (Return tt, shows "Error: Please provide an API key" p)
    else if blank (prompt_input (self p)) then
      (Return tt, shows "Error: Please enter a prompt" p)
    else
      (Return tt,
       with_request
         (completion_request
            (joined [strip (prefix_input (self p));
                     strip (prompt_input (self p));
                     strip (suffix_input (self p))])
            (strip (api_key_input (self p)))) p).
Proof.
  rewrite generate_code_unfold. cbv zeta. rewrite !is_empty_strip.
  destruct (blank (api_key_input (self p))); [done|].
  destruct (blank (prompt_input (self p))) eqn:Hbody; [done|].
  rewrite strip_compose; [done|apply strip_clean..|].
  apply is_empty_false. by rewrite is_empty_strip.
Qed.

Lemma shows_not_with_request (text : string) (r : UrlRequest) p :
  shows text p ≠ with_request r p.
Proof.
  intros H%(f_equal (λ q, length (requests q))). simpl in H.
  rewrite length_app in H. simpl in H. lia.
Qed.

(** X1. [generate_code] answers with the missing-key message exactly
    when the key field holds white space only (the empty text included). *)
Theorem generate_code_key_error_iff_blank p :
  generate_code p = (Return tt, shows "Error: Please provide an API key" p)
  ↔ blank (api_key_input (self p)) = true.
Proof.
  rewrite generate_code_by_blank.
  destruct (blank (api_key_input (self p))); [done|].
  split; [|done]. destruct (blank (prompt_input (self p))).
  - intros H%(f_equal (λ r, code_display (self r.2))). discriminate H.
  - intros H%(f_equal snd). symmetry in H.
    by apply shows_not_with_request in H.
Qed.

(** X2. With a key that is not blank, [generate_code] answers with the
    missing-prompt message exactly when the prompt field holds white space
    only. *)
Theorem generate_code_body_error_iff_blank p :
  blank (api_key_input (self p)) = false →
  generate_code p = (Return tt, shows "Error: Please enter a prompt" p)
  ↔ blank (prompt_input (self p)) = true.
Proof.
  intros Hkey. rewrite generate_code_by_blank, Hkey.
  destruct (blank (prompt_input (self p))); [done|].
  split; [|done].
  intros H%(f_equal snd). symmetry in H.
  by apply shows_not_with_request in H.
Qed.

(** X3. The prompt that is sent is made of the stripped prefix, body and
    suffix that are not empty, with one space between neighbours: a blank
    prefix or suffix leaves no space behind, and the white space inside a
    part is kept. *)
Theorem generate_code_prompt_joined p :
  blank (api_key_input (self p)) = false →
  blank (prompt_input (self p)) = false →
  generate_code p =
    (Return tt,
     with_request
       (completion_request
          (joined [strip (prefix_input (self p));
                   strip (prompt_input (self p));
                   strip (suffix_input (self p))])
          (strip (api_key_input (self p)))) p).
Proof. intros Hkey Hbody. by rewrite generate_code_by_blank, Hkey, Hbody. Qed.

(** X4. Whenever [generate_code] sends a request, it is a POST to the
    completions URL whose prompt and whose key are not empty and have no
    white space at either end, and the code display is left alone. *)
Theorem generate_code_request_clean p r :
  requests (generate_code p).2 = requests p ++ [r] →
  ∃ prompt api_key,
    r = completion_request prompt api_key
    ∧ prompt ≠ "" ∧ strip prompt = prompt
    ∧ api_key ≠ "" ∧ strip api_key = api_key
    ∧ code_display (self (generate_code p).2) = code_display (self p).
Proof.
  rewrite generate_code_by_blank.
  destruct (blank (api_key_input (self p))) eqn:Hkey.
  { simpl. intros H%(f_equal length). rewrite length_app in H. simpl in H. lia. }
  destruct (blank (prompt_input (self p))) eqn:Hbody.
  { simpl. intros H%(f_equal length). rewrite length_app in H. simpl in H. lia. }
  simpl. intros [= <-]%app_inv_head.
  assert (Hb : strip (prompt_input (self p)) ≠ "").
  { apply is_empty_false. by rewrite is_empty_strip. }
  eexists _, _. split_and!; [done| | | | |done].
  - by apply joined_nonempty.
  - rewrite <- strip_compose; [|apply strip_clean..|done].
    apply strip_idempotent.
  - apply is_empty_false. by rewrite is_empty_strip.
  - apply strip_idempotent.
Qed.

(** X5. [generate_code] never raises and never touches the layout, the
    four input fields or the interpreter; it either writes a message and
    sends nothing, or sends one request after the earlier ones and writes
    nothing. *)
Theorem generate_code_frame p :
  (generate_code p).1 = Return tt
  ∧ layout (self (generate_code p).2) = layout (self p)
  ∧ api_key_input (self (generate_code p).2) = api_key_input (self p)
  ∧ prefix_input (self (generate_code p).2) = prefix_input (self p)
  ∧ suffix_input (self (generate_code p).2) = suffix_input (self p)
  ∧ prompt_input (self (generate_code p).2) = prompt_input (self p)
  ∧ interp (generate_code p).2 = interp p
  ∧ (requests (generate_code p).2 = requests p
     ∨ code_display (self (generate_code p).2) = code_display (self p)
       ∧ ∃ r, requests (generate_code p).2 = requests p ++ [r]).
Proof.
  rewrite generate_code_by_blank.
  destruct (blank (api_key_input (self p))); [by split_and!; auto|].
  destruct (blank (prompt_input (self p))); [by split_and!; auto|].
  split_and!; try done. right. eauto.
Qed.

(** X6. From the form as [build] leaves it, with a key and a prompt
    typed in, the prompt sent is the default prefix, the stripped prompt
    and the default suffix one space apart: the line feeds that end the
    default prefix and start the default suffix are not sent. *)
Theorem generate_code_from_build (asteroids_code api_key prompt : string) (w : W) :
  blank api_key = false →
  blank prompt = false →
  generate_code
    (mkProcess (enter api_key prompt (build asteroids_code)) [] w : Process V W)
  = (Return tt,
     mkProcess (enter api_key prompt (build asteroids_code))
       [completion_request
          (default_prefix_text +:+ " " +:+ strip prompt +:+ " "
           +:+ default_suffix_text)
          (strip api_key)] w).
Proof.
  intros Hkey Hbody. rewrite generate_code_by_blank. simpl.
  rewrite Hkey, Hbody.
  destruct strip_defaults as (-> & -> & Hpre & Hsuf).
  assert (Hb : strip prompt ≠ "").
  { apply is_empty_false. by rewrite is_empty_strip. }
  unfold joined. by rewrite !filter_cons_True by done.
Qed.

End GenerationMore.

(** ** [on_success], further *)

Section CallbacksMore.

Context {V W : Type}.
Implicit Types (p : Process V W) (rt : Runtime V W).

Lemma shows_same p : shows (code_display (self p)) p = p.
Proof. by destruct p as [[]]. Qed.

(** X7. An exception leaves [on_success] only from the assignment to
    the code display: the response has a content that is not a text, the
    setter of [TextInput.text] raised the exception, and its class is none
    of [KeyError], [IndexError], [TypeError]; the process is then as it
    was. The subscriptions themselves never make [on_success] raise. *)
Theorem on_success_escape_from_setter rt req result p e :
  (on_success rt req result p).1 = Raise e →
  (∃ content,
     content_at_path result = Some content
     ∧ (∀ text, content ≠ PStr text)
     ∧ set_text_other rt content = inr e
     ∧ matches [KeyError; IndexError; TypeError] e = false)
  ∧ (on_success rt req result p).2 = p.
Proof.
  rewrite on_success_unfold.
  destruct (content_at_path result) as [content|]; [|done].
  destruct content; try done;
    (destruct (set_text_other rt _) as [text|e'] eqn:Hset; [done|];
     destruct (matches _ e') eqn:Hclass; [done|];
     intros [= <-]; split; [|done];
     eexists; split_and!; [done|done|exact Hset|exact Hclass]).
Qed.

(** X8. [on_success] changes nothing but the text of the code display:
    the layout, the input fields, the requests and the interpreter are as
    they were. *)
Theorem on_success_frame rt req result p :
  ∃ text, (on_success rt req result p).2 = shows text p.
Proof.
  rewrite on_success_unfold.
  destruct (content_at_path result) as [content|]; [|by eauto].
  destruct content; try by eauto.
  all: destruct (set_text_other rt _) as [text|e]; [by eauto|];
       destruct (matches _ e); [by eauto|];
       exists (code_display (self p)); by rewrite shows_same.
Qed.

(** X9. [on_success] reads the first choice only and no other key of
    the response: further choices and further keys (an id, a usage record)
    change nothing. *)
Theorem on_success_reads_first_choice rt req d first rest rest' name v p :
  d !! "choices" = Some (PList (first :: rest)) →
  name ≠ "choices" →
  on_success rt req
    (PDict (<[name := v]> (<["choices" := PList (first :: rest')]> d))) p
  = on_success rt req (PDict d) p.
Proof.
  intros Hd Hname. rewrite !on_success_unfold. simpl.
  by rewrite lookup_insert_ne, lookup_insert_eq, Hd.
Qed.

End CallbacksMore.

(** ** [run_game], further *)

Section ExecutorMore.

Context {V W : Type}.
Implicit Types (p q : Process V W) (rt : Runtime V W).



(** X11. What [run_game] itself writes. For an artifact that leaves the
    app alone (its evaluation, its entry point and its [__str__] change
    the interpreter state at most), a run sends no request and edits no
    input field; the code display keeps its text or gets a message that
    begins with 'Error'; and the layout is the one the run found, or
    empty, or the one instance it mounted, in which case the run returned
    and the artifact is still in the code display. *)
Theorem run_game_frame rt p :
  quiet rt →
  api_key_input (self (run_game rt p).2) = api_key_input (self p)
  ∧ prefix_input (self (run_game rt p).2) = prefix_input (self p)
  ∧ suffix_input (self (run_game rt p).2) = suffix_input (self p)
  ∧ prompt_input (self (run_game rt p).2) = prompt_input (self p)
  ∧ requests (run_game rt p).2 = requests p
  ∧ (code_display (self (run_game rt p).2) = code_display (self p)
     ∨ String.prefix "Error" (code_display (self (run_game rt p).2)) = true)
  ∧ (layout (self (run_game rt p).2) = layout (self p)
     ∨ layout (self (run_game rt p).2) = []
     ∨ ∃ game_widget,
         layout (self (run_game rt p).2) = [GameWidget game_widget]
         ∧ (run_game rt p).1 = Return tt
         ∧ code_display (self (run_game rt p).2) = code_display (self p)).
Proof.
  intros Hq. pose proof Hq as (Hexec & Hcall & _).
  rewrite run_game_unfold. cbv zeta.
  destruct (is_empty _); [by split_and!; auto|].
  destruct (Hexec (code_display (self p)) ∅ p) as [w1 H1].
  destruct (exec rt _ _ _) as [[namespace|e] q]; simpl in H1; subst q.
  2:{ destruct (quiet_handled rt e (with_interp w1 p) Hq)
        as (text & w & -> & [->|Htext]); by split_and!; auto. }
  destruct (namespace !! "GeneratedGameWidget") as [entry|];
    [|by split_and!; auto].
  destruct (Hcall entry (with_interp w1 p)) as [w2 H2].
  destruct (call rt entry _) as [[g|e] q']; simpl in H2; subst q'.
  2:{ destruct (quiet_handled rt e (with_interp w2 (with_interp w1 p)) Hq)
        as (text & w & -> & [->|Htext]); by split_and!; auto. }
  destruct (add_widget_error rt g) as [e|].
  - destruct (quiet_handled rt e
                (mounts [] (with_interp w2 (with_interp w1 p))) Hq)
      as (text & w & -> & [->|Htext]); by split_and!; auto.
  - split_and!; try done; [by left|]. right; right. by exists g.
Qed.

(** X12. A completion whose content is the empty text, once received,
    leaves nothing to run: the next run answers
    'Error: No valid code to run', whatever the code display held before,
    and evaluates nothing. *)
Theorem empty_completion_then_run rt req result p :
  content_at_path result = Some (PStr "") →
  (on_success rt req result;; run_game rt) p
  = (Return tt, shows "Error: No valid code to run" p).
Proof.
  intros Hpath. unfold mbind, M_bind.
  rewrite on_success_unfold, Hpath, run_game_unfold. reflexivity.
Qed.


End ExecutorMore.

(** ** The texts the app writes *)

Section Messages.

Context {V W : Type}.
Implicit Types (p : Process V W) (rt : Runtime V W).

(** X14. [generate_code], [on_failure] and [on_error] put nothing in
    the code display but messages that begin with 'Error':
    [generate_code] leaves the text as it was or writes such a message,
    [on_failure] always writes one, and so does [on_error] for an
    exception of Python or of a library, made with a message. *)
Theorem app_writes_only_errors rt req result c s p :
  (code_display (self (generate_code p).2) = code_display (self p)
   ∨ String.prefix "Error" (code_display (self (generate_code p).2)) = true)
  ∧ String.prefix "Error" (code_display (self (on_failure req result p).2))
    = true
  ∧ String.prefix "Error"
      (code_display (self (on_error rt req (Exn c s) p).2))
    = true.
Proof.
  split_and!; [|done..].
  rewrite generate_code_by_blank.
  destruct (blank (api_key_input (self p))); [by right|].
  destruct (blank (prompt_input (self p))); [by right|by left].
Qed.

End Messages.

(** *** The further theorems at concrete inputs *)

Lemma generate_code_body_error_iff_blank_witness :
  generate_code (process "k" "  " "old")
  = (Return tt, shows "Error: Please enter a prompt" (process "k" "  " "old"))
  ↔ blank "  " = true.
Proof.
  apply (generate_code_body_error_iff_blank (process "k" "  " "old")).
  reflexivity.
Defined.

Lemma generate_code_prompt_joined_witness :
  generate_code (process " k " "  a  b " "old")
  = (Return tt,
     with_request (completion_request "a  b" "k")
       (process " k " "  a  b " "old")).
Proof.
  apply (generate_code_prompt_joined (process " k " "  a  b " "old"));
    reflexivity.
Defined.

Lemma generate_code_request_clean_witness :
  ∃ prompt api_key,
    completion_request "a  b" "k" = completion_request prompt api_key
    ∧ prompt ≠ "" ∧ strip prompt = prompt
    ∧ api_key ≠ "" ∧ strip api_key = api_key
    ∧ code_display (self (generate_code (process " k " "  a  b " "old")).2)
      = "old".
Proof.
  apply (generate_code_request_clean (process " k " "  a  b " "old")
           (completion_request "a  b" "k")).
  reflexivity.
Defined.

Lemma generate_code_from_build_witness :
  generate_code
    (mkProcess (enter "k" " snake " (build "pass")) [] world0
       : Process obj world)
  = (Return tt,
     mkProcess (enter "k" " snake " (build "pass"))
       [completion_request
          (default_prefix_text +:+ " " +:+ "snake" +:+ " "
           +:+ default_suffix_text) "k"] world0).
Proof.
  apply (generate_code_from_build "pass" "k" " snake " world0); reflexivity.
Defined.

Lemma on_success_escape_from_setter_witness :
  (∃ content,
     content_at_path body_null = Some content
     ∧ (∀ text, content ≠ PStr text)
     ∧ set_text_other runtime content
       = inr (Exn AttributeError "'NoneType' object has no attribute 'replace'")
     ∧ matches [KeyError; IndexError; TypeError]
         (Exn AttributeError "'NoneType' object has no attribute 'replace'")
       = false)
  ∧ (on_success runtime (completion_request "a game" "k") body_null
       (process "k" "a game" "old")).2
    = process "k" "a game" "old".
Proof.
  apply (on_success_escape_from_setter runtime
           (completion_request "a game" "k") body_null
           (process "k" "a game" "old")).
  reflexivity.
Defined.

Lemma on_success_reads_first_choice_witness :
  on_success runtime (completion_request "a game" "k")
    (PDict (<["id" := PStr "1"]>
           (<["choices" :=
                PList [PDict {[ "message" := PDict {[ "content" := PStr "X" ]} ]};
                       PNone]]>
           {[ "choices" :=
                PList [PDict {[ "message" := PDict {[ "content" := PStr "X" ]} ]}] ]})))
    (process "k" "a game" "old")
  = on_success runtime (completion_request "a game" "k") body_X
      (process "k" "a game" "old").
Proof.
  apply (on_success_reads_first_choice runtime
           (completion_request "a game" "k")
           {[ "choices" :=
                PList [PDict {[ "message" := PDict {[ "content" := PStr "X" ]} ]}] ]}
           (PDict {[ "message" := PDict {[ "content" := PStr "X" ]} ]})
           [] [PNone] "id" (PStr "1") (process "k" "a game" "old"));
    done.
Defined.


Lemma run_game_frame_witness :
  requests (run_game runtime (process "k" "" widget_text)).2 = []
  ∧ (layout (self (run_game runtime (process "k" "" widget_text)).2)
     = layout (self (process "k" "" widget_text))
     ∨ layout (self (run_game runtime (process "k" "" widget_text)).2) = []
     ∨ ∃ game_widget,
         layout (self (run_game runtime (process "k" "" widget_text)).2)
         = [GameWidget game_widget]
         ∧ (run_game runtime (process "k" "" widget_text)).1 = Return tt
         ∧ code_display (self (run_game runtime (process "k" "" widget_text)).2)
           = widget_text).
Proof.
  pose proof (run_game_frame runtime (process "k" "" widget_text)
                fragment_quiet) as (_ & _ & _ & _ & Hreq & _ & Hlayout).
  split; [exact Hreq|exact Hlayout].
Defined.

Lemma empty_completion_then_run_witness :
  (on_success runtime (completion_request "a game" "k") (completion_body "");;
   run_game runtime) (process "k" "a game" "old")
  = (Return tt, shows "Error: No valid code to run" (process "k" "a game" "old")).
Proof.
  apply (empty_completion_then_run runtime (completion_request "a game" "k")
           (completion_body "") (process "k" "a game" "old")).
  reflexivity.
Defined.

